(** * kr-persistence-inmemory: the in-memory [Persistence] class of src/index.js

    A shallow embedding of the class and of the part of the JavaScript
    run time its six methods rely on (truthiness, property reads, object
    spread, array element reads and writes, [push] and [splice]), followed by
    the properties of the store.

    Layout: [Module Js] holds the values and the array object, [Module
    Persistence] the class, one definition per method under the method's
    name; the theorems come after both. *)

From stdpp Require Import gmap strings list fin_maps pretty.

Set Warnings "-register-all".
Open Scope Z_scope.

(* ===================================================================== *)
(** ** JavaScript values *)
(* ===================================================================== *)

Module Js.

(** Numbers: the integer-valued ones and [NaN]. A fractional or infinite
    Number is truthy and is never an array index, which is how a negative
    integer behaves in every function below. *)
Inductive Num :=
| NaN
| Int (z : Z).

(** A record is a plain object: a finite map from field names to values.
    Equality of [gmap]s is extensional, which is the deep equality the
    store's callers compare records with. No method assigns to a field of a
    record it holds (only array slots are assigned), so a record is a value
    here and not a reference; the array [this.data] is the one object the
    class both mutates and hands out, and it is kept by reference (see
    [Persistence.Ret]). *)
Inductive Value :=
| VUndefined
| VNull
| VBool (b : bool)
| VNum (n : Num)
| VStr (s : string)
| VObj (o : gmap string Value).

(** The two kinds of error object met in the class: [new Error(message)]
    with the [status] and [data] fields the class assigns to it, and the
    engine's [TypeError] for a property read on [null] or [undefined]
    (its message depends on the engine). *)
Inductive Error :=
| ErrorObj (message : string) (status : Z) (data : Value)
| TypeError.

(** How an expression or a synchronous call ends. *)
Inductive Completion (A : Type) :=
| Normal (a : A)
| Throw (e : Error).
Arguments Normal {A} a.
Arguments Throw {A} e.

(** ToBoolean. *)
Definition truthy (v : Value) : bool :=
  match v with
  | VUndefined | VNull => false
  | VBool b => b
  | VNum NaN => false
  | VNum (Int z) => negb (z =? 0)
  | VStr s => negb (String.eqb s "")
  | VObj _ => true
  end.

(** [o[k]] on a plain object: the field, or [undefined]. *)
Definition field (o : gmap string Value) (k : string) : Value :=
  default VUndefined (o !! k).

(** [v.valid]: a property read for a name that no built-in prototype
    defines. It throws on [null] and [undefined], finds nothing on the other
    primitives and reads the field of an object. *)
Definition get_valid (v : Value) : Completion Value :=
  match v with
  | VUndefined | VNull => Throw TypeError
  | VBool _ | VNum _ | VStr _ => Normal VUndefined
  | VObj o => Normal (field o "valid")
  end.

(** The key of element [i]: its decimal numeral. *)
Definition index_key (i : nat) : string := pretty i.

(** Elements as properties: [{0: x0, 1: x1, ...}]. *)
Definition indexed (l : list Value) : gmap string Value :=
  list_to_map (imap (fun i v => (index_key i, v)) l).

Definition chars (s : string) : list Value :=
  (fun c => VStr (String c EmptyString)) <$> String.list_ascii_of_string s.

(** The own enumerable properties [{...v}] copies: the fields of an object,
    the characters of a string, nothing for the other primitives. *)
Definition own_props (v : Value) : gmap string Value :=
  match v with
  | VObj o => o
  | VStr s => indexed (chars s)
  | _ => ∅
  end.

(** [{...a, ...b}] given the own properties of [a] and of [b]: those of
    [b] win ([∪] on maps keeps the left operand's binding). *)
Definition spread2 (a b : gmap string Value) : gmap string Value := b ∪ a.

(** *** The array object

    [elems] are the elements at the indices [0 .. length-1]; [props] are the
    other own properties an assignment such as [arr[-1] = v] or
    [arr[undefined] = v] adds to the object. Arrays are unbounded here
    (an engine stops at 2^32-1 elements) and a hole left by a write past the
    end is filled with [undefined], which is what reading it yields. *)
Record Array := {
  elems : list Value;
  props : gmap string Value
}.

Definition empty_array : Array := {| elems := []; props := ∅ |}.

(** What is passed as [id]: nothing ([undefined]) or a Number. *)
Inductive Id :=
| IdUndefined
| IdNum (n : Num).

Definition id_value (id : Id) : Value :=
  match id with
  | IdUndefined => VUndefined
  | IdNum n => VNum n
  end.

(** ToPropertyKey of an id: an element index, or a property name (the
    numeral of a negative integer, written in full). *)
Definition id_key (id : Id) : nat + string :=
  match id with
  | IdUndefined => inr "undefined"%string
  | IdNum NaN => inr "NaN"%string
  | IdNum (Int z) => if 0 <=? z then inl (Z.to_nat z) else inr (pretty z)
  end.

(** [arr[id]]. *)
Definition array_get (a : Array) (id : Id) : Value :=
  match id_key id with
  | inl i => default VUndefined (elems a !! i)
  | inr k => default VUndefined (props a !! k)
  end.

(** [arr[id] = v]: overwrites an element, extends the array when the index
    is at or past the end, and sets a named property otherwise. *)
Definition array_set (a : Array) (id : Id) (v : Value) : Array :=
  match id_key id with
  | inl i =>
      if bool_decide (i < length (elems a))%nat
      then {| elems := <[i := v]> (elems a); props := props a |}
      else {| elems := elems a ++ replicate (i - length (elems a)) VUndefined ++ [v];
              props := props a |}
  | inr k => {| elems := elems a; props := <[k := v]> (props a) |}
  end.

(** [arr.push(v)]. *)
Definition push (a : Array) (v : Value) : Array :=
  {| elems := elems a ++ [v]; props := props a |}.

(** ToIntegerOrInfinity of an id: [undefined] and [NaN] give 0. *)
Definition id_integer (id : Id) : Z :=
  match id with
  | IdUndefined | IdNum NaN => 0
  | IdNum (Int z) => z
  end.

(** [arr.splice(id, 1)]: a negative start counts from the end, the start is
    clamped to [0 .. length], and one element is removed there if there is
    one. *)
Definition splice1 (a : Array) (id : Id) : Array :=
  let len := Z.of_nat (length (elems a)) in
  let rel := id_integer id in
  let start := if rel <? 0 then Z.max (len + rel) 0 else Z.min rel len in
  {| elems := base.delete (Z.to_nat start) (elems a); props := props a |}.

(** The own enumerable properties of the array, as [{...arr}] copies them. *)
Definition array_props (a : Array) : gmap string Value :=
  indexed (elems a) ∪ props a.

End Js.

Import Js.

(* ===================================================================== *)
(** ** The class *)
(* ===================================================================== *)

Module Persistence.

(** An instance: [this.data] and [this.model]. *)
Record Store := {
  data : Array;
  model : Value
}.

(** What a promise is resolved with: a value, or the array [this.data]
    itself. The array is handed out by reference, so what the caller sees in
    it is the store's current collection, not a copy taken at the time of
    the call (see [observe]). *)
Inductive Ret :=
| RVal (v : Value)
| RData.

(** How a method call ends: with a resolved promise, with a rejected
    promise, or (for a method that is not [async]) by throwing before any
    promise exists. *)
Inductive Outcome :=
| Resolved (r : Ret)
| Rejected (e : Error)
| Threw (e : Error).

(** What a caller holding [r] reads from it while the store is [s]. *)
Inductive Seen :=
| SeenValue (v : Value)
| SeenArray (a : Array).

Definition observe (s : Store) (r : Ret) : Seen :=
  match r with
  | RVal v => SeenValue v
  | RData => SeenArray (data s)
  end.

(** [{...el}] for a resolved [el]. *)
Definition ret_props (s : Store) (el : Ret) : gmap string Value :=
  match el with
  | RVal v => own_props v
  | RData => array_props (data s)
  end.

Definition set_data (s : Store) (a : Array) : Store :=
  {| data := a; model := model s |}.

Definition not_found : Error := ErrorObj "Resource not found" 404 (VObj ∅).

Definition invalid_data : Error :=
  ErrorObj "Invalid data" 400 (VObj {[ "valid"%string := VStr "should be true" ]}).

Definition constructor (model : Value) : Store :=
  {| data := empty_array; model := model |}.

(** [validate(data)]: returns [null] ([None]) or an error; the read of
    [data.valid] may throw. *)
Definition validate (d : Value) : Completion (option Error) :=
  match get_valid d with
  | Throw e => Throw e
  | Normal v => if truthy v then Normal None else Normal (Some invalid_data)
  end.

(** [list(id)]. Not [async]: it returns a promise it builds itself. *)
Definition list (s : Store) (id : Id) : Outcome :=
  if truthy (id_value id) then
    let el := array_get (data s) id in
    if truthy el then Resolved (RVal el)
    else Rejected not_found
  else Resolved RData.

(** [create(data)]. Not [async] and without [try]: what [validate] throws
    leaves [create] as an exception. *)
Definition create (s : Store) (d : Value) : Store * Outcome :=
  match validate d with
  | Throw e => (s, Threw e)
  | Normal (Some err) => (s, Rejected err)
  | Normal None =>
      let a := push (data s) d in
      (set_data s a, Resolved (RVal (VNum (Int (Z.of_nat (length (elems a)) - 1)))))
  end.

(** [await p] inside [try]: a rejection is thrown to the [catch]. *)
Definition await (p : Outcome) : Completion Ret :=
  match p with
  | Resolved r => Normal r
  | Rejected e | Threw e => Throw e
  end.

(** [update(id, data)]. [async], its body in [try]/[catch]: whatever is
    thrown becomes a rejection. *)
Definition update (s : Store) (id : Id) (d : Value) : Store * Outcome :=
  match await (list s id) with
  | Throw e => (s, Rejected e)
  | Normal el =>
      let merged := VObj (spread2 (ret_props s el) (own_props d)) in
      match validate merged with
      | Throw e => (s, Rejected e)
      | Normal (Some err) => (s, Rejected err)
      | Normal None => (set_data s (array_set (data s) id merged), Resolved el)
      end
  end.

(** [replace(id, data)]. *)
Definition replace (s : Store) (id : Id) (d : Value) : Store * Outcome :=
  match await (list s id) with
  | Throw e => (s, Rejected e)
  | Normal el =>
      match validate d with
      | Throw e => (s, Rejected e)
      | Normal (Some err) => (s, Rejected err)
      | Normal None => (set_data s (array_set (data s) id d), Resolved el)
      end
  end.

(** [delete(id)]. *)
Definition delete (s : Store) (id : Id) : Store * Outcome :=
  match await (list s id) with
  | Throw e => (s, Rejected e)
  | Normal el => (set_data s (splice1 (data s) id), Resolved el)
  end.

End Persistence.

Import Persistence (Store, Ret, RVal, RData, Outcome, Resolved, Rejected, Threw,
                    Seen, SeenValue, SeenArray, observe, data, model,
                    not_found, invalid_data).

(* ===================================================================== *)
(** ** Calls as data: a store driven by a sequence of calls *)
(* ===================================================================== *)

Inductive Op :=
| OpList (id : Id)
| OpCreate (d : Value)
| OpUpdate (id : Id) (d : Value)
| OpReplace (id : Id) (d : Value)
| OpDelete (id : Id)
| OpValidate (d : Value).

(** The store after a call. [list] and [validate] assign nothing. *)
Definition step (s : Store) (op : Op) : Store :=
  match op with
  | OpList _ | OpValidate _ => s
  | OpCreate d => fst (Persistence.create s d)
  | OpUpdate id d => fst (Persistence.update s id d)
  | OpReplace id d => fst (Persistence.replace s id d)
  | OpDelete id => fst (Persistence.delete s id)
  end.

Definition run (s : Store) (ops : list Op) : Store := foldl step s ops.

(** An id written as a number. *)
Definition num (z : Z) : Id := IdNum (Int z).

(** The record at position [i] of the collection, if any. *)
Definition record_at (s : Store) (i : nat) : option Value := elems (data s) !! i.

(** The collection, first record first. *)
Definition collection (s : Store) : list Value := elems (data s).

(** A stored value that is a record with a truthy [valid] field. *)
Definition valid_record (v : Value) : bool :=
  match v with
  | VObj o => truthy (field o "valid")
  | _ => false
  end.

Definition all_valid (s : Store) : Prop :=
  Forall (fun v => valid_record v = true) (collection s).

(** Records used in the examples. *)
Definition rec_x : Value := VObj {[ "valid"%string := VBool true; "name"%string := VStr "x" ]}.
Definition rec_y : Value := VObj {[ "valid"%string := VBool true; "name"%string := VStr "y" ]}.
Definition name_y : Value := VObj {[ "name"%string := VStr "y" ]}.
Definition just_valid : Value := VObj {[ "valid"%string := VBool true ]}.
Definition rec_a : Value := VObj {[ "a"%string := VNum (Int 1); "valid"%string := VBool true ]}.
Definition rec_b : Value := VObj {[ "b"%string := VNum (Int 2); "valid"%string := VBool true ]}.
Definition not_valid : Value := VObj {[ "valid"%string := VBool false ]}.
Definition store0 : Store := Persistence.constructor (VObj ∅).
Definition store_of (l : list Value) : Store :=
  {| data := {| elems := l; props := ∅ |}; model := VObj ∅ |}.

(** Whether a call ended with a rejected promise. *)
Definition is_rejected (r : Outcome) : bool :=
  match r with
  | Rejected _ => true
  | Resolved _ | Threw _ => false
  end.

(** A record whose [valid] field is absent or holds a falsy value. *)
Definition valid_falsy_or_absent (o : gmap string Value) : Prop :=
  o !! "valid"%string = None \/
  exists v, o !! "valid"%string = Some v /\ truthy v = false.

(** The array has own named properties under ["NaN"] and ["undefined"]
    only: the two names an assignment [this.data[id] = v] with a falsy id
    can create. *)
Definition named_props_ok (s : Store) : Prop :=
  forall k, is_Some (props (data s) !! k) ->
            k = "NaN"%string \/ k = "undefined"%string.

(** Whether a call ended with a resolved promise. *)
Definition is_resolved (r : Outcome) : bool :=
  match r with
  | Resolved _ => true
  | Rejected _ | Threw _ => false
  end.

(** [null] or [undefined]: the two values a property read throws on. *)
Definition nullish (v : Value) : bool :=
  match v with
  | VUndefined | VNull => true
  | _ => false
  end.

(** The values [{...v}] copies nothing from. *)
Definition no_own_props (v : Value) : bool :=
  match v with
  | VUndefined | VNull | VBool _ | VNum _ => true
  | VStr s => String.eqb s ""
  | VObj o => bool_decide (o = ∅)
  end.

Definition rec_ab : Value :=
  VObj {[ "a"%string := VNum (Int 1); "b"%string := VNum (Int 2);
          "valid"%string := VBool true ]}.

(* ===================================================================== *)
(** ** Basic facts about the run time *)
(* ===================================================================== *)

Section RunTime.

Implicit Types (a : Array) (v : Value) (o : gmap string Value) (id : Id).

Lemma falsy_or_absent_field o :
  valid_falsy_or_absent o <-> truthy (field o "valid") = false.
Proof.
  unfold valid_falsy_or_absent, field. split.
  - intros [-> | (v & -> & Hv)]; [reflexivity | exact Hv].
  - destruct (o !! "valid"%string) as [v |]; [right | left]; eauto.
Qed.

Lemma truthy_id_cases id :
  truthy (id_value id) = false ->
  id = IdUndefined \/ id = IdNum NaN \/ id = IdNum (Int 0).
Proof.
  destruct id as [| [| z]]; cbn; auto.
  intros Hz. apply negb_false_iff, Z.eqb_eq in Hz. subst. auto.
Qed.

Lemma truthy_id_key id :
  truthy (id_value id) = true ->
  exists z, id = IdNum (Int z) /\ z <> 0.
Proof.
  destruct id as [| [| z]]; cbn; try discriminate.
  intros Hz. apply negb_true_iff, Z.eqb_neq in Hz. eauto.
Qed.

Lemma truthy_not_undefined v : truthy v = true -> v <> VUndefined.
Proof. intros H ->. discriminate. Qed.

(** A truthy element read at a non-negative index lies inside the array. *)
Lemma array_get_index a (i : nat) :
  truthy (array_get a (IdNum (Int (Z.of_nat i)))) = true ->
  exists el, elems a !! i = Some el /\ array_get a (IdNum (Int (Z.of_nat i))) = el.
Proof.
  unfold array_get, id_key.
  destruct (Z.leb_spec 0 (Z.of_nat i)); [| lia].
  rewrite Nat2Z.id. destruct (elems a !! i) as [el |]; cbn; [eauto | discriminate].
Qed.

Lemma array_get_in_range a (i : nat) el :
  elems a !! i = Some el -> array_get a (IdNum (Int (Z.of_nat i))) = el.
Proof.
  intros H. unfold array_get, id_key.
  destruct (Z.leb_spec 0 (Z.of_nat i)); [| lia].
  rewrite Nat2Z.id, H. reflexivity.
Qed.

Lemma array_set_in_range a (i : nat) v :
  (i < length (elems a))%nat ->
  array_set a (IdNum (Int (Z.of_nat i))) v =
  {| elems := <[i := v]> (elems a); props := props a |}.
Proof.
  intros H. unfold array_set, id_key.
  destruct (Z.leb_spec 0 (Z.of_nat i)); [| lia].
  rewrite Nat2Z.id, bool_decide_eq_true_2 by exact H. reflexivity.
Qed.

Lemma splice1_in_range a (i : nat) :
  (i < length (elems a))%nat ->
  splice1 a (IdNum (Int (Z.of_nat i))) =
  {| elems := base.delete i (elems a); props := props a |}.
Proof.
  intros H. unfold splice1, id_integer.
  destruct (Z.ltb_spec (Z.of_nat i) 0); [lia |].
  rewrite Z.min_l by lia. rewrite Nat2Z.id. reflexivity.
Qed.

End RunTime.

(* ===================================================================== *)
(** ** The methods, case by case *)
(* ===================================================================== *)

Section Methods.

Implicit Types (s : Store) (v d el : Value) (o : gmap string Value) (id : Id).

Lemma validate_obj o :
  Persistence.validate (VObj o) =
  if truthy (field o "valid") then Normal None else Normal (Some invalid_data).
Proof. reflexivity. Qed.

(** [validate] returns [null] exactly on the records with a truthy [valid]. *)
Lemma validate_passes d :
  Persistence.validate d = Normal None <-> valid_record d = true.
Proof.
  destruct d as [| | b | n | str | o]; try (cbn; split; discriminate).
  rewrite validate_obj. cbn. destruct (truthy _); split; congruence.
Qed.

Lemma validate_fails d :
  valid_record d = false ->
  Persistence.validate d = Throw TypeError \/
  Persistence.validate d = Normal (Some invalid_data).
Proof.
  destruct d as [| | b | n | str | o]; try (cbn; auto; fail).
  rewrite validate_obj. cbn. intros ->. auto.
Qed.

Lemma list_falsy s id :
  truthy (id_value id) = false -> Persistence.list s id = Resolved RData.
Proof. intros H. unfold Persistence.list. rewrite H. reflexivity. Qed.

Lemma list_found s id :
  truthy (id_value id) = true ->
  truthy (array_get (data s) id) = true ->
  Persistence.list s id = Resolved (RVal (array_get (data s) id)).
Proof. intros H1 H2. unfold Persistence.list. rewrite H1, H2. reflexivity. Qed.

Lemma list_missing s id :
  truthy (id_value id) = true ->
  truthy (array_get (data s) id) = false ->
  Persistence.list s id = Rejected not_found.
Proof. intros H1 H2. unfold Persistence.list. rewrite H1, H2. reflexivity. Qed.

(** [list] never throws and resolves either with a truthy element or with
    the array. *)
Lemma list_cases s id :
  (truthy (id_value id) = false /\ Persistence.list s id = Resolved RData) \/
  (truthy (id_value id) = true /\
   ((truthy (array_get (data s) id) = true /\
     Persistence.list s id = Resolved (RVal (array_get (data s) id))) \/
    (truthy (array_get (data s) id) = false /\
     Persistence.list s id = Rejected not_found))).
Proof.
  destruct (truthy (id_value id)) eqn:H1; [right | left].
  - split; [reflexivity |].
    destruct (truthy (array_get (data s) id)) eqn:H2; [left | right];
      auto using list_found, list_missing.
  - auto using list_falsy.
Qed.

(** The record at a positive position is what [list] resolves with. *)
Lemma list_record s (i : nat) el :
  (0 < i)%nat -> record_at s i = Some el -> truthy el = true ->
  Persistence.list s (num (Z.of_nat i)) = Resolved (RVal el).
Proof.
  intros Hi Hel Ht. unfold record_at in Hel.
  pose proof (array_get_in_range _ _ _ Hel) as Hget.
  unfold num. rewrite list_found; rewrite ?Hget; auto.
  cbn. apply negb_true_iff, Z.eqb_neq. lia.
Qed.

(** Where [update] and [replace] write: inside the array, or at index 0 of
    an empty array, or on a named property. The array never gets a hole. *)
Lemma write_target s id (el : Ret) (i : nat) :
  Persistence.await (Persistence.list s id) = Normal el ->
  id_key id = inl i ->
  (i < length (elems (data s)))%nat \/ (i = 0%nat /\ elems (data s) = []).
Proof.
  intros Hl Hk.
  destruct (list_cases s id) as [[Hf Heq] | [Ht [[Hel Heq] | [Hel Heq]]]];
    rewrite Heq in Hl; cbn in Hl; try discriminate.
  - destruct (truthy_id_cases _ Hf) as [-> | [-> | ->]]; cbn in Hk; try discriminate.
    injection Hk as <-. destruct (elems (data s)); cbn; [auto | left; lia].
  - unfold array_get in Hel. rewrite Hk in Hel.
    destruct (elems (data s) !! i) as [x |] eqn:Hx; [| discriminate].
    left. eapply lookup_lt_Some, Hx.
Qed.

End Methods.

(* ===================================================================== *)
(** ** What the methods do at a truthy id *)
(* ===================================================================== *)

Section TruthyIds.

Implicit Types (s : Store) (v d el : Value) (o : gmap string Value) (id : Id).

(** Fields of [{...a, ...b}]: [b]'s where it has one, [a]'s otherwise. *)
Lemma spread2_lookup (a b : gmap string Value) k :
  spread2 a b !! k = match b !! k with Some v => Some v | None => a !! k end.
Proof.
  unfold spread2. rewrite lookup_union.
  destruct (b !! k), (a !! k); reflexivity.
Qed.

(** [create] of a valid record appends it and resolves with the old
    length. *)
Lemma create_valid s o :
  truthy (field o "valid") = true ->
  Persistence.create s (VObj o) =
  (Persistence.set_data s (push (data s) (VObj o)),
   Resolved (RVal (VNum (Int (Z.of_nat (length (collection s))))))).
Proof.
  intros H. unfold Persistence.create. rewrite validate_obj, H.
  cbn. rewrite length_app. cbn. do 5 f_equal. unfold collection. lia.
Qed.

(** On a store that already holds a record, the id [create] resolves with
    leads [list] to the new record. *)
Lemma create_then_list s o :
  truthy (field o "valid") = true ->
  collection s <> [] ->
  Persistence.list (fst (Persistence.create s (VObj o)))
                   (num (Z.of_nat (length (collection s))))
  = Resolved (RVal (VObj o)).
Proof.
  intros H Hne. rewrite create_valid by exact H. cbn.
  apply list_record; [| | reflexivity].
  - destruct (collection s); [congruence | cbn; lia].
  - unfold record_at. cbn. apply list_lookup_middle. reflexivity.
Qed.

(** At a truthy id where the array holds nothing truthy, all four methods
    reject with the error of [list] and assign nothing. *)
Lemma not_found_propagates s id d :
  truthy (id_value id) = true ->
  truthy (array_get (data s) id) = false ->
  Persistence.list s id = Rejected not_found /\
  Persistence.update s id d = (s, Rejected not_found) /\
  Persistence.replace s id d = (s, Rejected not_found) /\
  Persistence.delete s id = (s, Rejected not_found).
Proof.
  intros H1 H2. pose proof (list_missing s id H1 H2) as Hl.
  unfold Persistence.update, Persistence.replace, Persistence.delete.
  rewrite Hl. cbn. auto.
Qed.

(** [update] at a positive position holding [el]. *)
Lemma update_record s (i : nat) el d :
  (0 < i)%nat -> record_at s i = Some el -> truthy el = true ->
  let merged := VObj (spread2 (own_props el) (own_props d)) in
  Persistence.update s (num (Z.of_nat i)) d =
  if valid_record merged
  then (Persistence.set_data s {| elems := <[i := merged]> (collection s);
                                  props := props (data s) |},
        Resolved (RVal el))
  else (s, Rejected invalid_data).
Proof.
  intros Hi Hel Ht merged. unfold Persistence.update.
  rewrite (list_record s i el) by assumption.
  cbn [Persistence.await Persistence.ret_props]. fold merged.
  unfold merged at 1. rewrite validate_obj.
  change (truthy (field _ "valid")) with (valid_record merged).
  destruct (valid_record merged); [| reflexivity].
  unfold num. rewrite array_set_in_range; [reflexivity |].
  eapply lookup_lt_Some, Hel.
Qed.

(** [replace] at a positive position holding [el]. *)
Lemma replace_record s (i : nat) el d :
  (0 < i)%nat -> record_at s i = Some el -> truthy el = true ->
  Persistence.replace s (num (Z.of_nat i)) d =
  match Persistence.validate d with
  | Normal None =>
      (Persistence.set_data s {| elems := <[i := d]> (collection s);
                                 props := props (data s) |},
       Resolved (RVal el))
  | Normal (Some err) => (s, Rejected err)
  | Throw e => (s, Rejected e)
  end.
Proof.
  intros Hi Hel Ht. unfold Persistence.replace.
  rewrite (list_record s i el) by assumption. cbn.
  destruct (Persistence.validate d) as [[err |] | e]; try reflexivity.
  unfold num. rewrite array_set_in_range; [reflexivity |].
  eapply lookup_lt_Some, Hel.
Qed.

(** [delete] at a positive position holding [el]. *)
Lemma delete_record s (i : nat) el :
  (0 < i)%nat -> record_at s i = Some el -> truthy el = true ->
  Persistence.delete s (num (Z.of_nat i)) =
  (Persistence.set_data s {| elems := base.delete i (collection s);
                             props := props (data s) |},
   Resolved (RVal el)).
Proof.
  intros Hi Hel Ht. unfold Persistence.delete.
  rewrite (list_record s i el) by assumption. cbn.
  unfold num. rewrite splice1_in_range; [reflexivity |].
  eapply lookup_lt_Some, Hel.
Qed.

(** After such a [delete] the records behind position [i] have moved down
    by one and the collection is one shorter. *)
Lemma delete_record_shift s (i : nat) el :
  (0 < i)%nat -> record_at s i = Some el -> truthy el = true ->
  let s' := fst (Persistence.delete s (num (Z.of_nat i))) in
  (forall j, (j < i)%nat -> record_at s' j = record_at s j) /\
  (forall j, (i <= j)%nat -> record_at s' j = record_at s (S j)) /\
  S (length (collection s')) = length (collection s) /\
  Persistence.list s' (num (Z.of_nat (length (collection s) - 1))) = Rejected not_found.
Proof.
  intros Hi Hel Ht s'. subst s'. rewrite (delete_record s i el) by assumption.
  unfold record_at, collection. cbn.
  assert (Hlen : (i < length (elems (data s)))%nat) by (eapply lookup_lt_Some, Hel).
  repeat split.
  - intros j Hj. apply list_lookup_delete_lt. exact Hj.
  - intros j Hj. apply list_lookup_delete_ge. exact Hj.
  - rewrite length_delete by eauto. lia.
  - apply list_missing.
    + cbn. apply negb_true_iff, Z.eqb_neq. lia.
    + unfold array_get, num, id_key. cbn.
      destruct (Z.leb_spec 0 (Z.of_nat (length (elems (data s)) - 1))); [| lia].
      rewrite Nat2Z.id. rewrite list_lookup_delete_ge by lia.
      rewrite lookup_ge_None_2 by lia. reflexivity.
Qed.

End TruthyIds.

(* ===================================================================== *)
(** ** Every stored record is valid *)
(* ===================================================================== *)

Section Invariant.

Implicit Types (s : Store) (v d : Value) (id : Id).

Lemma constructor_all_valid m : all_valid (Persistence.constructor m).
Proof. unfold all_valid, collection. cbn. constructor. Qed.

(** The assignment [this.data[id] = v] of [update] and [replace], made
    after [list] resolved, keeps the records valid when [v] is. *)
Lemma assign_all_valid s id (el : Ret) v :
  Persistence.await (Persistence.list s id) = Normal el ->
  valid_record v = true ->
  all_valid s ->
  all_valid (Persistence.set_data s (array_set (data s) id v)).
Proof.
  intros Hl Hv Hs. unfold all_valid, collection, array_set in *. cbn.
  destruct (id_key id) as [i | k] eqn:Hk; [| exact Hs].
  destruct (write_target s id el i Hl Hk) as [Hlt | [-> Hnil]].
  - rewrite bool_decide_eq_true_2 by exact Hlt. cbn.
    apply Forall_insert; assumption.
  - rewrite Hnil. cbn. constructor; [exact Hv | constructor].
Qed.

Lemma create_all_valid s d :
  all_valid s -> all_valid (fst (Persistence.create s d)).
Proof.
  intros Hs. unfold Persistence.create.
  destruct (Persistence.validate d) as [[err |] | e] eqn:Hval; cbn; try exact Hs.
  apply validate_passes in Hval.
  unfold all_valid, collection in *. cbn.
  apply Forall_app. split; [exact Hs | constructor; [exact Hval | constructor]].
Qed.

Lemma update_all_valid s id d :
  all_valid s -> all_valid (fst (Persistence.update s id d)).
Proof.
  intros Hs. unfold Persistence.update.
  destruct (Persistence.await (Persistence.list s id)) as [el | e] eqn:Hl;
    [| exact Hs].
  destruct (Persistence.validate _) as [[err |] | e] eqn:Hval; cbn; try exact Hs.
  apply validate_passes in Hval. eapply assign_all_valid; eassumption.
Qed.

Lemma replace_all_valid s id d :
  all_valid s -> all_valid (fst (Persistence.replace s id d)).
Proof.
  intros Hs. unfold Persistence.replace.
  destruct (Persistence.await (Persistence.list s id)) as [el | e] eqn:Hl;
    [| exact Hs].
  destruct (Persistence.validate d) as [[err |] | e] eqn:Hval; cbn; try exact Hs.
  apply validate_passes in Hval. eapply assign_all_valid; eassumption.
Qed.

Lemma delete_all_valid s id :
  all_valid s -> all_valid (fst (Persistence.delete s id)).
Proof.
  intros Hs. unfold Persistence.delete.
  destruct (Persistence.await (Persistence.list s id)) as [el | e]; [| exact Hs].
  unfold all_valid, collection in *. cbn. apply Forall_delete. exact Hs.
Qed.

Lemma step_all_valid s op : all_valid s -> all_valid (step s op).
Proof.
  destruct op; cbn;
    auto using create_all_valid, update_all_valid, replace_all_valid,
               delete_all_valid.
Qed.

(** Whatever calls are made on a new store, its records are valid. *)
Lemma run_all_valid m ops : all_valid (run (Persistence.constructor m) ops).
Proof.
  unfold run. generalize (constructor_all_valid m).
  generalize (Persistence.constructor m). induction ops as [| op ops IH]; cbn.
  - auto.
  - intros s Hs. apply IH, step_all_valid, Hs.
Qed.

End Invariant.

(* ===================================================================== *)
(** ** The claims *)
(* ===================================================================== *)

(** C1. The scenario of the specification, as the class runs it: on a new
    store [create({valid:true, name:"x"})] resolves with 0 and [list()]
    resolves with the array holding that one record; [update(0, {name:"y"})]
    then takes the array for the element, builds [{0: record, name: "y"}],
    which has no [valid], and rejects with the status-400 error, leaving the
    record as it was; [delete(0)] empties the array and resolves with the
    array itself, in which the caller finds no record. *)
Theorem scenario_id_zero :
  let s1 := store_of [rec_x] in
  Persistence.create store0 rec_x = (s1, Resolved (RVal (VNum (Int 0)))) /\
  Persistence.list s1 IdUndefined = Resolved RData /\
  observe s1 RData = SeenArray {| elems := [rec_x]; props := ∅ |} /\
  Persistence.update s1 (num 0) name_y = (s1, Rejected invalid_data) /\
  Persistence.delete s1 (num 0) = (store0, Resolved RData) /\
  observe store0 RData = SeenArray empty_array /\
  Persistence.list store0 IdUndefined = Resolved RData.
Proof. cbv zeta. repeat split; reflexivity. Qed.

(** C2. Id 0 on an empty store holds no record, yet none of the four
    methods rejects: [list(0)] resolves with the (empty) array, [update] and
    [replace] with a valid record store it at index 0, and [delete(0)]
    resolves as well. *)
Theorem id_zero_on_empty_store :
  record_at store0 0 = None /\
  Persistence.list store0 (num 0) = Resolved RData /\
  Persistence.update store0 (num 0) just_valid
    = (store_of [just_valid], Resolved RData) /\
  Persistence.replace store0 (num 0) just_valid
    = (store_of [just_valid], Resolved RData) /\
  Persistence.delete store0 (num 0) = (store0, Resolved RData).
Proof. repeat split; reflexivity. Qed.

(** C3. The first [create] on a new store resolves with id 0, and [list(0)]
    then resolves with the array, not with the record created. *)
Theorem first_create_then_list :
  Persistence.create store0 just_valid
    = (store_of [just_valid], Resolved (RVal (VNum (Int 0)))) /\
  Persistence.list (store_of [just_valid]) (num 0) = Resolved RData /\
  Persistence.list (store_of [just_valid]) (num 0) <> Resolved (RVal just_valid).
Proof. repeat split; try reflexivity. discriminate. Qed.

(** C4. For a falsy id (omitted, [NaN] or 0) [list] resolves with the array
    [this.data], in which the caller reads the whole collection; it neither
    rejects nor resolves with a single record, whatever the store holds. *)
Theorem list_falsy_id_gives_collection (s : Store) (id : Id) :
  truthy (id_value id) = false ->
  Persistence.list s id = Resolved RData /\
  observe s RData = SeenArray (data s) /\
  (forall e, Persistence.list s id <> Rejected e) /\
  (forall e, Persistence.list s id <> Threw e) /\
  (forall v, Persistence.list s id <> Resolved (RVal v)).
Proof.
  intros H. rewrite (list_falsy s id H).
  repeat split; try reflexivity; intros ?; discriminate.
Qed.

Lemma list_falsy_id_gives_collection_witness :
  truthy (id_value (num 0)) = false /\
  Persistence.list (store_of [rec_x; rec_y]) (num 0) = Resolved RData /\
  observe (store_of [rec_x; rec_y]) RData
    = SeenArray {| elems := [rec_x; rec_y]; props := ∅ |}.
Proof.
  split; [reflexivity |].
  pose proof (list_falsy_id_gives_collection (store_of [rec_x; rec_y]) (num 0)
                eq_refl) as (H1 & H2 & _).
  split; [exact H1 | exact H2].
Defined.

(** C5. For a record whose [valid] is falsy or absent, [validate] returns
    (does not throw) the error with message "Invalid data", status 400 and
    data [{valid: "should be true"}]; [create] rejects with that error and
    leaves the store, hence the collection and its length, as they were. *)
Theorem create_invalid_rejected (s : Store) (o : gmap string Value) :
  valid_falsy_or_absent o ->
  Persistence.validate (VObj o) = Normal (Some invalid_data) /\
  invalid_data
    = ErrorObj "Invalid data" 400 (VObj {[ "valid"%string := VStr "should be true" ]}) /\
  Persistence.create s (VObj o) = (s, Rejected invalid_data) /\
  collection (fst (Persistence.create s (VObj o))) = collection s.
Proof.
  intros H. apply falsy_or_absent_field in H.
  unfold Persistence.create. rewrite validate_obj, H. auto.
Qed.

Lemma create_invalid_rejected_witness :
  valid_falsy_or_absent ∅ /\
  Persistence.create (store_of [rec_x]) (VObj ∅)
    = (store_of [rec_x], Rejected invalid_data).
Proof.
  assert (H : valid_falsy_or_absent ∅) by (left; reflexivity).
  split; [exact H |].
  exact (proj1 (proj2 (proj2 (create_invalid_rejected (store_of [rec_x]) ∅ H)))).
Defined.

(** C6. [update] at id 0, where a record sits: the array is taken for the
    existing record, so what is stored at index 0 is
    [{0: old record, b: 2, valid: true}] and not the old record overlaid
    with the data, and the promise resolves with the array and not with the
    old record. *)
Theorem update_at_id_zero :
  Persistence.update (store_of [rec_a]) (num 0) rec_b
  = (store_of [VObj {[ "0"%string := rec_a;
                       "b"%string := VNum (Int 2);
                       "valid"%string := VBool true ]}],
     Resolved RData).
Proof. reflexivity. Qed.

(** C7. [replace] at id 0, where a record sits: the data is stored at
    index 0, but the promise resolves with the array, in which the caller
    finds the new record, and not with the previous one. *)
Theorem replace_at_id_zero :
  Persistence.replace (store_of [rec_a]) (num 0) rec_b
    = (store_of [rec_b], Resolved RData) /\
  observe (store_of [rec_b]) RData = SeenArray {| elems := [rec_b]; props := ∅ |}.
Proof. split; reflexivity. Qed.

(** C8. [delete] at id 0, where a record sits: the record is removed and
    the next one moves to index 0, but the promise resolves with the array,
    which no longer holds the removed record, and [list(0)] afterwards
    resolves with the array as well. *)
Theorem delete_at_id_zero :
  Persistence.delete (store_of [rec_x; rec_y]) (num 0)
    = (store_of [rec_y], Resolved RData) /\
  observe (store_of [rec_y]) RData = SeenArray {| elems := [rec_y]; props := ∅ |} /\
  Persistence.list (store_of [rec_y]) (num 0) = Resolved RData.
Proof. repeat split; reflexivity. Qed.

(** C9. The collection of a new store holds only valid records (it is
    empty), and every call of [list], [create], [update], [replace],
    [delete] or [validate], with any arguments, on a store whose records all
    have a truthy [valid] leaves a store whose records all have one. *)
Theorem valid_invariant (m : Value) :
  all_valid (Persistence.constructor m) /\
  (forall (s : Store) (op : Op), all_valid s -> all_valid (step s op)).
Proof.
  split; [apply constructor_all_valid |].
  intros s op. apply step_all_valid.
Qed.

Lemma valid_invariant_witness :
  all_valid store0 /\ all_valid (step store0 (OpCreate rec_x)).
Proof.
  assert (H : all_valid store0) by (apply Forall_nil; exact I).
  split; [exact H |].
  exact (proj2 (valid_invariant (VObj ∅)) store0 (OpCreate rec_x) H).
Defined.

(** C10, as stated: [create(null)] returns a promise rejected with the
    TypeError. It does not: the call throws and no promise is returned. *)
Lemma create_null_is_not_rejected :
  is_rejected (snd (Persistence.create store0 VNull)) = false /\
  Persistence.create store0 VNull = (store0, Threw TypeError).
Proof. split; reflexivity. Qed.

(** C10, amended. On [null] and on [undefined] [validate] throws a
    TypeError instead of returning the status-400 error; [create], which is
    neither [async] nor guarded by [try], lets that exception out to its
    caller before any promise exists, and assigns nothing; on an object
    [validate] never throws: it returns [null] or the error. *)
Theorem validate_null_throws :
  Persistence.validate VNull = Throw TypeError /\
  Persistence.validate VUndefined = Throw TypeError /\
  (forall s : Store, Persistence.create s VNull = (s, Threw TypeError)) /\
  (forall s : Store, Persistence.create s VUndefined = (s, Threw TypeError)) /\
  (forall o : gmap string Value,
     Persistence.validate (VObj o) = Normal None \/
     Persistence.validate (VObj o) = Normal (Some invalid_data)).
Proof.
  repeat split; try reflexivity.
  intros o. rewrite validate_obj. destruct (truthy _); auto.
Qed.

(* ===================================================================== *)
(** ** Further properties of the methods *)
(* ===================================================================== *)

Section Shared.

Implicit Types (s : Store) (v d el : Value) (o : gmap string Value) (id : Id).

Lemma valid_record_obj d :
  valid_record d = true ->
  exists o, d = VObj o /\ truthy (field o "valid") = true.
Proof. destruct d; cbn; try discriminate. eauto. Qed.

Lemma create_of_valid s d :
  valid_record d = true ->
  Persistence.create s d =
  (Persistence.set_data s (push (data s) d),
   Resolved (RVal (VNum (Int (Z.of_nat (length (collection s))))))).
Proof.
  intros Hd. destruct (valid_record_obj d Hd) as (o & -> & Ho).
  apply create_valid, Ho.
Qed.

Lemma field_spread2 (a b : gmap string Value) k :
  field (spread2 a b) k = match b !! k with Some v => v | None => field a k end.
Proof.
  unfold field. rewrite spread2_lookup. destruct (b !! k); reflexivity.
Qed.

Lemma truthy_num z : z <> 0 -> truthy (id_value (num z)) = true.
Proof. intros H. cbn. apply negb_true_iff, Z.eqb_neq, H. Qed.

Lemma id_key_index (i : nat) : id_key (num (Z.of_nat i)) = inl i.
Proof.
  unfold num, id_key. destruct (Z.leb_spec 0 (Z.of_nat i)); [| lia].
  rewrite Nat2Z.id. reflexivity.
Qed.

(** The property name of a negative id. *)
Lemma id_key_negative z : z < 0 -> id_key (num z) = inr (pretty z).
Proof.
  intros H. unfold num, id_key. destruct (Z.leb_spec 0 z); [lia | reflexivity].
Qed.

Lemma pretty_negative z :
  z < 0 -> pretty z <> "NaN"%string /\ pretty z <> "undefined"%string.
Proof. destruct z as [| p | p]; try lia. intros _. split; discriminate. Qed.

Lemma store_eta s : {| data := data s; model := model s |} = s.
Proof. destruct s. reflexivity. Qed.

Lemma array_eta (a : Array) : {| elems := elems a; props := props a |} = a.
Proof. destruct a. reflexivity. Qed.

(** Writing back what is there changes nothing. *)
Lemma set_same s (i : nat) el :
  record_at s i = Some el ->
  Persistence.set_data s {| elems := <[i := el]> (collection s);
                            props := props (data s) |} = s.
Proof.
  intros H. unfold Persistence.set_data, collection, record_at in *.
  rewrite list_insert_id by exact H. rewrite array_eta. apply store_eta.
Qed.

(** The name [update] and [replace] may write to when the id is not an
    index. *)
Lemma named_write_target s id (el : Ret) k :
  Persistence.await (Persistence.list s id) = Normal el ->
  id_key id = inr k ->
  k = "NaN"%string \/ k = "undefined"%string \/ is_Some (props (data s) !! k).
Proof.
  intros Hl Hk.
  destruct (list_cases s id) as [[Hf Heq] | [Ht [[Hel Heq] | [Hel Heq]]]];
    rewrite Heq in Hl; cbn in Hl; try discriminate.
  - destruct (truthy_id_cases _ Hf) as [-> | [-> | ->]]; cbn in Hk;
      try discriminate; injection Hk as <-; auto.
  - unfold array_get in Hel. rewrite Hk in Hel.
    destruct (props (data s) !! k) as [x |] eqn:Hx; [| discriminate].
    right; right. eauto.
Qed.

Lemma assign_named_props_ok s id (el : Ret) v :
  Persistence.await (Persistence.list s id) = Normal el ->
  named_props_ok s ->
  named_props_ok (Persistence.set_data s (array_set (data s) id v)).
Proof.
  intros Hl Hs. unfold named_props_ok, array_set in *. cbn.
  destruct (id_key id) as [i | k] eqn:Hk.
  - destruct (bool_decide _); cbn; exact Hs.
  - cbn. intros k' Hk'. destruct (decide (k = k')) as [<- | Hne].
    + destruct (named_write_target s id el k Hl Hk) as [H | [H | H]]; auto.
    + rewrite lookup_insert_ne in Hk' by exact Hne. auto.
Qed.

Lemma step_named_props_ok s op : named_props_ok s -> named_props_ok (step s op).
Proof.
  intros Hs. destruct op as [id | d | id d | id d | id | d]; cbn; try exact Hs.
  - unfold Persistence.create.
    destruct (Persistence.validate d) as [[err |] | e]; cbn; exact Hs.
  - unfold Persistence.update.
    destruct (Persistence.await _) as [el | e] eqn:Hl; [| exact Hs].
    destruct (Persistence.validate _) as [[err |] | e]; cbn; try exact Hs.
    eapply assign_named_props_ok; eassumption.
  - unfold Persistence.replace.
    destruct (Persistence.await _) as [el | e] eqn:Hl; [| exact Hs].
    destruct (Persistence.validate _) as [[err |] | e]; cbn; try exact Hs.
    eapply assign_named_props_ok; eassumption.
  - unfold Persistence.delete.
    destruct (Persistence.await _) as [el | e]; cbn; exact Hs.
Qed.

Lemma run_named_props_ok m ops :
  named_props_ok (run (Persistence.constructor m) ops).
Proof.
  assert (H0 : named_props_ok (Persistence.constructor m)).
  { intros k [x Hx]. cbn in Hx. rewrite lookup_empty in Hx. discriminate. }
  revert H0. unfold run. generalize (Persistence.constructor m).
  induction ops as [| op ops IH]; cbn; [auto |].
  intros s Hs. apply IH, step_named_props_ok, Hs.
Qed.

(** On a store with no stray named property a negative id reads
    [undefined]. *)
Lemma array_get_negative s z :
  named_props_ok s -> z < 0 -> array_get (data s) (num z) = VUndefined.
Proof.
  intros Hs Hz. unfold array_get. rewrite id_key_negative by exact Hz.
  destruct (props (data s) !! pretty z) as [x |] eqn:Hx; [| reflexivity].
  destruct (pretty_negative z Hz) as [H1 H2].
  destruct (Hs (pretty z)) as [H | H]; [eauto | |]; contradiction.
Qed.

Lemma no_own_props_empty d : no_own_props d = true -> own_props d = ∅.
Proof.
  destruct d as [| | b | n | str | o]; cbn; try reflexivity.
  - intros H. apply String.eqb_eq in H. subst. reflexivity.
  - intros H. apply bool_decide_eq_true_1 in H. exact H.
Qed.

(** [list] at a positive integer id is decided by the element at that
    index alone. *)
Lemma list_positive s (j : nat) :
  (0 < j)%nat ->
  Persistence.list s (num (Z.of_nat j)) =
  match collection s !! j with
  | Some el => if truthy el then Resolved (RVal el) else Rejected not_found
  | None => Rejected not_found
  end.
Proof.
  intros Hj. unfold Persistence.list. rewrite truthy_num by lia.
  unfold array_get. rewrite id_key_index. unfold collection.
  destruct (elems (data s) !! j) as [el |]; reflexivity.
Qed.

Lemma model_step s op : model (step s op) = model s.
Proof.
  destruct op as [id | d | id d | id d | id | d]; cbn; try reflexivity.
  - unfold Persistence.create.
    destruct (Persistence.validate d) as [[err |] | e]; reflexivity.
  - unfold Persistence.update.
    destruct (Persistence.await _) as [el | e]; [| reflexivity].
    destruct (Persistence.validate _) as [[err |] | e]; reflexivity.
  - unfold Persistence.replace.
    destruct (Persistence.await _) as [el | e]; [| reflexivity].
    destruct (Persistence.validate _) as [[err |] | e]; reflexivity.
  - unfold Persistence.delete.
    destruct (Persistence.await _) as [el | e]; reflexivity.
Qed.

(** The assignment of [update] and [replace] keeps the length of a
    collection that is not empty. *)
Lemma assign_length s id (el : Ret) v :
  Persistence.await (Persistence.list s id) = Normal el ->
  collection s <> [] ->
  length (elems (array_set (data s) id v)) = length (collection s).
Proof.
  intros Hl Hne. unfold array_set, collection in *.
  destruct (id_key id) as [i | k] eqn:Hk; [| reflexivity].
  destruct (write_target s id el i Hl Hk) as [Hlt | [_ Hnil]]; [| contradiction].
  rewrite bool_decide_eq_true_2 by exact Hlt. cbn. apply length_insert.
Qed.

End Shared.

(** X1. An id past the end of the collection (and different from 0) names
    nothing: [list], [update], [replace] and [delete] all reject with the
    "Resource not found" error (status 404, data [{}]) and the store is left
    as it was, whatever the data passed. *)
Theorem out_of_range_id_rejected (s : Store) (z : Z) (d : Value) :
  0 < z -> Z.of_nat (length (collection s)) <= z ->
  Persistence.list s (num z) = Rejected (ErrorObj "Resource not found" 404 (VObj ∅)) /\
  Persistence.update s (num z) d = (s, Rejected not_found) /\
  Persistence.replace s (num z) d = (s, Rejected not_found) /\
  Persistence.delete s (num z) = (s, Rejected not_found).
Proof.
  intros Hz Hlen. apply not_found_propagates.
  - apply truthy_num. lia.
  - unfold array_get. rewrite <- (Z2Nat.id z) by lia. rewrite id_key_index.
    unfold collection in Hlen. rewrite lookup_ge_None_2 by lia. reflexivity.
Qed.

Lemma out_of_range_id_rejected_witness :
  Persistence.update (store_of [rec_x]) (num 1) rec_y
    = (store_of [rec_x], Rejected not_found) /\
  Persistence.delete (store_of [rec_x]) (num 1)
    = (store_of [rec_x], Rejected not_found).
Proof.
  pose proof (out_of_range_id_rejected (store_of [rec_x]) 1 rec_y
                ltac:(lia) ltac:(cbn; lia)) as (_ & H2 & _ & H4).
  split; [exact H2 | exact H4].
Defined.

(** X2. On a store reached from the constructor by any calls, a negative
    id names nothing either: the four methods reject with the 404 error and
    assign nothing. *)
Theorem negative_id_rejected (m : Value) (ops : list Op) (z : Z) (d : Value) :
  z < 0 ->
  let s := run (Persistence.constructor m) ops in
  Persistence.list s (num z) = Rejected not_found /\
  Persistence.update s (num z) d = (s, Rejected not_found) /\
  Persistence.replace s (num z) d = (s, Rejected not_found) /\
  Persistence.delete s (num z) = (s, Rejected not_found).
Proof.
  intros Hz s. apply not_found_propagates.
  - apply truthy_num. lia.
  - subst s. rewrite array_get_negative; [reflexivity | | exact Hz].
    apply run_named_props_ok.
Qed.

Lemma negative_id_rejected_witness :
  Persistence.delete (run store0 [OpCreate rec_x; OpCreate rec_y]) (num (-1))
  = (run store0 [OpCreate rec_x; OpCreate rec_y], Rejected not_found).
Proof.
  exact (proj2 (proj2 (proj2
    (negative_id_rejected (VObj ∅) [OpCreate rec_x; OpCreate rec_y] (-1) VNull
       ltac:(lia))))).
Defined.

(** X3. On a store reached from the constructor, every position from 1 up
    to the last holds a record with a truthy [valid], and [list] of that
    position resolves with exactly that record. *)
Theorem reachable_lookup_in_range (m : Value) (ops : list Op) (i : nat) :
  (0 < i < length (collection (run (Persistence.constructor m) ops)))%nat ->
  exists o,
    record_at (run (Persistence.constructor m) ops) i = Some (VObj o) /\
    truthy (field o "valid") = true /\
    Persistence.list (run (Persistence.constructor m) ops) (num (Z.of_nat i))
      = Resolved (RVal (VObj o)).
Proof.
  set (s := run (Persistence.constructor m) ops). intros [Hi Hlen].
  destruct (lookup_lt_is_Some_2 (collection s) i Hlen) as [el Hel].
  pose proof (run_all_valid m ops) as Hall. fold s in Hall.
  unfold all_valid in Hall. rewrite Forall_lookup in Hall.
  destruct (valid_record_obj el (Hall i el Hel)) as (o & -> & Ho).
  exists o. repeat split; [exact Hel | exact Ho |].
  apply list_record; [exact Hi | exact Hel | reflexivity].
Qed.

Lemma reachable_lookup_in_range_witness :
  Persistence.list (run store0 [OpCreate rec_x; OpCreate rec_y]) (num 1)
  = Resolved (RVal rec_y).
Proof.
  destruct (reachable_lookup_in_range (VObj ∅) [OpCreate rec_x; OpCreate rec_y] 1
              ltac:(vm_compute; lia)) as (o & H1 & _ & H3).
  cbv in H1. injection H1 as <-. exact H3.
Defined.

(** X4. A successful [create] only adds at the end: it resolves with the
    old length, every record keeps its position, the new record sits at the
    position resolved, and neither the named properties of the array nor
    [this.model] change. *)
Theorem create_keeps_earlier_records (s : Store) (d : Value) :
  valid_record d = true ->
  snd (Persistence.create s d)
    = Resolved (RVal (VNum (Int (Z.of_nat (length (collection s)))))) /\
  collection (fst (Persistence.create s d)) = collection s ++ [d] /\
  (forall j x, record_at s j = Some x ->
               record_at (fst (Persistence.create s d)) j = Some x) /\
  record_at (fst (Persistence.create s d)) (length (collection s)) = Some d /\
  props (data (fst (Persistence.create s d))) = props (data s) /\
  model (fst (Persistence.create s d)) = model s.
Proof.
  intros Hd. rewrite create_of_valid by exact Hd.
  unfold record_at, collection. cbn. repeat split.
  - intros j x Hx. apply lookup_app_l_Some, Hx.
  - apply list_lookup_middle. reflexivity.
Qed.

Lemma create_keeps_earlier_records_witness :
  collection (fst (Persistence.create (store_of [rec_x]) rec_y)) = [rec_x] ++ [rec_y].
Proof.
  exact (proj1 (proj2
    (create_keeps_earlier_records (store_of [rec_x]) rec_y eq_refl))).
Defined.

(** X5. Two [create] calls in a row resolve with consecutive ids and leave
    the two records, in call order, at the end of the collection. *)
Theorem consecutive_creates (s : Store) (a b : Value) :
  valid_record a = true -> valid_record b = true ->
  let n := Z.of_nat (length (collection s)) in
  let s1 := fst (Persistence.create s a) in
  snd (Persistence.create s a) = Resolved (RVal (VNum (Int n))) /\
  snd (Persistence.create s1 b) = Resolved (RVal (VNum (Int (n + 1)))) /\
  collection (fst (Persistence.create s1 b)) = collection s ++ [a; b].
Proof.
  intros Ha Hb n s1. subst n s1.
  rewrite (create_of_valid s a Ha). cbn [fst snd].
  rewrite create_of_valid by exact Hb. unfold collection. cbn.
  rewrite length_app, <- app_assoc. cbn.
  repeat split. do 4 f_equal. lia.
Qed.

Lemma consecutive_creates_witness :
  collection (fst (Persistence.create (fst (Persistence.create store0 rec_x)) rec_y))
  = [rec_x; rec_y].
Proof.
  exact (proj2 (proj2 (consecutive_creates store0 rec_x rec_y eq_refl eq_refl))).
Defined.

(** X6. [create] with an argument that is neither [null] nor [undefined]
    and is not a record with a truthy [valid] (a boolean, a number, a string,
    or a record whose [valid] is missing or falsy) rejects with the
    "Invalid data" error, status 400, and assigns nothing; it does not
    throw. *)
Theorem create_unfit_argument_rejected (s : Store) (d : Value) :
  nullish d = false -> valid_record d = false ->
  Persistence.create s d
  = (s, Rejected (ErrorObj "Invalid data" 400
                    (VObj {[ "valid"%string := VStr "should be true" ]}))).
Proof.
  intros Hn Hv. unfold Persistence.create.
  destruct d as [| | b | n | str | o]; try discriminate; try reflexivity.
  rewrite validate_obj. cbn in Hv. rewrite Hv. reflexivity.
Qed.

Lemma create_unfit_argument_rejected_witness :
  Persistence.create (store_of [rec_x]) (VStr "valid")
  = (store_of [rec_x], Rejected invalid_data).
Proof.
  exact (create_unfit_argument_rejected (store_of [rec_x]) (VStr "valid")
           eq_refl eq_refl).
Defined.

(** X7. A successful [update] at a positive position: the promise resolves
    with the record that was there, the record now there has, field by
    field, the data's value where the data has the field and the old
    record's value otherwise, every other position keeps its record and the
    collection keeps its length. *)
Theorem update_merges_fields (s : Store) (i : nat) (oel od : gmap string Value) :
  (0 < i)%nat ->
  record_at s i = Some (VObj oel) ->
  truthy (field (spread2 oel od) "valid") = true ->
  snd (Persistence.update s (num (Z.of_nat i)) (VObj od)) = Resolved (RVal (VObj oel)) /\
  (exists m,
     record_at (fst (Persistence.update s (num (Z.of_nat i)) (VObj od))) i
       = Some (VObj m) /\
     forall k, m !! k = match od !! k with Some v => Some v | None => oel !! k end) /\
  (forall j, j <> i ->
     record_at (fst (Persistence.update s (num (Z.of_nat i)) (VObj od))) j
       = record_at s j) /\
  length (collection (fst (Persistence.update s (num (Z.of_nat i)) (VObj od))))
    = length (collection s).
Proof.
  intros Hi Hel Hv.
  rewrite (update_record s i (VObj oel) (VObj od) Hi Hel eq_refl).
  cbn [valid_record own_props]. rewrite Hv. unfold record_at, collection in *. cbn.
  assert (Hlt : (i < length (elems (data s)))%nat) by (eapply lookup_lt_Some, Hel).
  repeat split.
  - exists (spread2 oel od). split.
    + apply list_lookup_insert_eq, Hlt.
    + apply spread2_lookup.
  - intros j Hj. apply list_lookup_insert_ne. congruence.
  - apply length_insert.
Qed.

Lemma update_merges_fields_witness :
  snd (Persistence.update (store_of [rec_x; rec_a]) (num 1) rec_b)
    = Resolved (RVal rec_a) /\
  record_at (fst (Persistence.update (store_of [rec_x; rec_a]) (num 1) rec_b)) 1
    = Some rec_ab.
Proof.
  split; [| reflexivity].
  exact (proj1 (update_merges_fields (store_of [rec_x; rec_a]) 1
                  {[ "a"%string := VNum (Int 1); "valid"%string := VBool true ]}
                  {[ "b"%string := VNum (Int 2); "valid"%string := VBool true ]}
                  ltac:(lia) eq_refl eq_refl)).
Defined.

(** X8. On a store reached from the constructor, [update] at a position
    from 1 up to the last, with a record that has no [valid] field of its
    own, always resolves: the stored record's [valid] is inherited. *)
Theorem update_without_valid_resolves
    (m : Value) (ops : list Op) (i : nat) (od : gmap string Value) :
  (0 < i < length (collection (run (Persistence.constructor m) ops)))%nat ->
  od !! "valid"%string = None ->
  is_resolved
    (snd (Persistence.update (run (Persistence.constructor m) ops)
            (num (Z.of_nat i)) (VObj od))) = true.
Proof.
  set (s := run (Persistence.constructor m) ops). intros [Hi Hlen] Hod.
  destruct (lookup_lt_is_Some_2 (collection s) i Hlen) as [el Hel].
  pose proof (run_all_valid m ops) as Hall. fold s in Hall.
  unfold all_valid in Hall. rewrite Forall_lookup in Hall.
  destruct (valid_record_obj el (Hall i el Hel)) as (o & -> & Ho).
  rewrite (update_record s i (VObj o) (VObj od) Hi Hel eq_refl).
  cbn [valid_record own_props]. rewrite field_spread2, Hod, Ho. reflexivity.
Qed.

Lemma update_without_valid_resolves_witness :
  is_resolved
    (snd (Persistence.update (run store0 [OpCreate rec_x; OpCreate rec_y])
            (num 1) name_y)) = true.
Proof.
  exact (update_without_valid_resolves (VObj ∅) [OpCreate rec_x; OpCreate rec_y] 1
           {[ "name"%string := VStr "y" ]} ltac:(vm_compute; lia) eq_refl).
Defined.



(** X10. [update] never throws and never rejects with a TypeError, not
    even for [null] or [undefined] data: it resolves, or rejects with the
    404 or the 400 error, and a rejection leaves the store as it was. *)
Theorem update_outcomes (s : Store) (id : Id) (d : Value) :
  match snd (Persistence.update s id d) with
  | Resolved _ => True
  | Rejected e =>
      (e = not_found \/ e = invalid_data) /\ fst (Persistence.update s id d) = s
  | Threw _ => False
  end.
Proof.
  unfold Persistence.update.
  destruct (list_cases s id) as [[_ Heq] | [_ [[_ Heq] | [_ Heq]]]]; rewrite Heq;
    cbn [Persistence.await]; try (cbn; auto; fail);
    rewrite validate_obj; destruct (truthy _); cbn; auto.
Qed.

(** X11. [replace] with [null] or [undefined], at any id for which [list]
    resolves, rejects with the TypeError that [validate] throws (the
    [catch] turns it into a rejection) and assigns nothing. *)
Theorem replace_nullish_rejects (s : Store) (id : Id) (d : Value) :
  is_resolved (Persistence.list s id) = true ->
  nullish d = true ->
  Persistence.replace s id d = (s, Rejected TypeError).
Proof.
  intros Hl Hd. unfold Persistence.replace.
  destruct (Persistence.list s id) as [el | e | e]; try discriminate.
  destruct d; try discriminate; reflexivity.
Qed.

Lemma replace_nullish_rejects_witness :
  Persistence.replace (store_of [rec_x; rec_y]) (num 1) VNull
  = (store_of [rec_x; rec_y], Rejected TypeError).
Proof.
  exact (replace_nullish_rejects (store_of [rec_x; rec_y]) (num 1) VNull
           eq_refl eq_refl).
Defined.

(** X12. [update] with data that has nothing to copy ([null], [undefined],
    a boolean, a number, the empty string or [{}]) at a positive position
    holding a valid record resolves with that record and leaves the store
    equal to what it was. *)
Theorem update_without_fields_changes_nothing
    (s : Store) (i : nat) (oel : gmap string Value) (d : Value) :
  (0 < i)%nat ->
  record_at s i = Some (VObj oel) ->
  truthy (field oel "valid") = true ->
  no_own_props d = true ->
  Persistence.update s (num (Z.of_nat i)) d = (s, Resolved (RVal (VObj oel))).
Proof.
  intros Hi Hel Hv Hd.
  rewrite (update_record s i (VObj oel) d Hi Hel eq_refl).
  rewrite (no_own_props_empty d Hd). cbn [own_props valid_record].
  unfold spread2. rewrite (left_id_L ∅ (∪)), Hv.
  rewrite set_same by exact Hel. reflexivity.
Qed.

Lemma update_without_fields_changes_nothing_witness :
  Persistence.update (store_of [rec_x; rec_y]) (num 1) VNull
  = (store_of [rec_x; rec_y], Resolved (RVal rec_y)).
Proof.
  exact (update_without_fields_changes_nothing (store_of [rec_x; rec_y]) 1
           {[ "valid"%string := VBool true; "name"%string := VStr "y" ]} VNull
           ltac:(lia) eq_refl eq_refl eq_refl).
Defined.

(** X13. Repeating a successful [update] at a positive position with the
    same data changes nothing more: the second call leaves the store the
    first one produced and resolves with the merged record the first one
    stored. *)
Theorem update_twice (s : Store) (i : nat) (el d : Value) :
  (0 < i)%nat ->
  record_at s i = Some el -> truthy el = true ->
  valid_record (VObj (spread2 (own_props el) (own_props d))) = true ->
  Persistence.update (fst (Persistence.update s (num (Z.of_nat i)) d))
                     (num (Z.of_nat i)) d
  = (fst (Persistence.update s (num (Z.of_nat i)) d),
     Resolved (RVal (VObj (spread2 (own_props el) (own_props d))))).
Proof.
  intros Hi Hel Ht Hv.
  rewrite (update_record s i el d Hi Hel Ht). cbv zeta. rewrite Hv. cbn [fst].
  set (merged := VObj (spread2 (own_props el) (own_props d))) in *.
  set (s1 := Persistence.set_data s _).
  assert (Hlt : (i < length (elems (data s)))%nat) by (eapply lookup_lt_Some, Hel).
  assert (H1 : record_at s1 i = Some merged).
  { unfold record_at, s1, collection. cbn. apply list_lookup_insert_eq, Hlt. }
  rewrite (update_record s1 i merged d Hi H1 eq_refl). cbv zeta.
  assert (Hm : VObj (spread2 (own_props merged) (own_props d)) = merged).
  { unfold merged, spread2. cbn [own_props].
    rewrite (assoc_L (∪)), (idemp_L (∪)). reflexivity. }
  rewrite Hm, Hv. rewrite set_same by exact H1. reflexivity.
Qed.

Lemma update_twice_witness :
  Persistence.update
    (fst (Persistence.update (store_of [rec_x; rec_a]) (num 1) rec_b)) (num 1) rec_b
  = (store_of [rec_x; rec_ab], Resolved (RVal rec_ab)).
Proof.
  exact (update_twice (store_of [rec_x; rec_a]) 1 rec_a rec_b
           ltac:(lia) eq_refl eq_refl eq_refl).
Defined.

(** X14. A successful [replace] at a positive position: the promise
    resolves with the record that was there, [list] of the same id then
    resolves with the data as passed, every other position keeps its record
    and the collection keeps its length. *)
Theorem replace_then_list (s : Store) (i : nat) (el d : Value) :
  (0 < i)%nat ->
  record_at s i = Some el -> truthy el = true ->
  valid_record d = true ->
  snd (Persistence.replace s (num (Z.of_nat i)) d) = Resolved (RVal el) /\
  Persistence.list (fst (Persistence.replace s (num (Z.of_nat i)) d)) (num (Z.of_nat i))
    = Resolved (RVal d) /\
  (forall j, j <> i ->
     record_at (fst (Persistence.replace s (num (Z.of_nat i)) d)) j = record_at s j) /\
  length (collection (fst (Persistence.replace s (num (Z.of_nat i)) d)))
    = length (collection s).
Proof.
  intros Hi Hel Ht Hd.
  rewrite (replace_record s i el d Hi Hel Ht).
  apply validate_passes in Hd as Hval. rewrite Hval. cbn [fst snd].
  assert (Hlt : (i < length (elems (data s)))%nat) by (eapply lookup_lt_Some, Hel).
  destruct (valid_record_obj d Hd) as (o & -> & _).
  repeat split.
  - apply list_record; [exact Hi | | reflexivity].
    unfold record_at, collection. cbn. apply list_lookup_insert_eq, Hlt.
  - intros j Hj. unfold record_at, collection. cbn.
    apply list_lookup_insert_ne. congruence.
  - unfold collection. cbn. apply length_insert.
Qed.

Lemma replace_then_list_witness :
  Persistence.list (fst (Persistence.replace (store_of [rec_x; rec_a]) (num 1) rec_b))
                   (num 1)
  = Resolved (RVal rec_b).
Proof.
  exact (proj1 (proj2 (replace_then_list (store_of [rec_x; rec_a]) 1 rec_a rec_b
                         ltac:(lia) eq_refl eq_refl eq_refl))).
Defined.

(** X15. Ids after a [delete] at a positive position [i]: for every
    positive id below [i], [list] answers as before; for every id from [i]
    on, [list] answers what it answered for the next id before. The promise
    of [delete] resolves with the removed record. *)
Theorem delete_renumbers (s : Store) (i : nat) (el : Value) :
  (0 < i)%nat ->
  record_at s i = Some el -> truthy el = true ->
  snd (Persistence.delete s (num (Z.of_nat i))) = Resolved (RVal el) /\
  (forall j, (0 < j < i)%nat ->
     Persistence.list (fst (Persistence.delete s (num (Z.of_nat i)))) (num (Z.of_nat j))
     = Persistence.list s (num (Z.of_nat j))) /\
  (forall j, (i <= j)%nat ->
     Persistence.list (fst (Persistence.delete s (num (Z.of_nat i)))) (num (Z.of_nat j))
     = Persistence.list s (num (Z.of_nat (S j)))).
Proof.
  intros Hi Hel Ht. rewrite (delete_record s i el Hi Hel Ht). cbn [fst snd].
  repeat split.
  - intros j [Hj Hji]. rewrite !list_positive by lia. unfold collection. cbn.
    rewrite list_lookup_delete_lt by exact Hji. reflexivity.
  - intros j Hj. rewrite !list_positive by lia. unfold collection. cbn.
    rewrite list_lookup_delete_ge by exact Hj. reflexivity.
Qed.

Lemma delete_renumbers_witness :
  Persistence.list (fst (Persistence.delete (store_of [rec_x; rec_a; rec_b]) (num 1)))
                   (num 1)
  = Resolved (RVal rec_b).
Proof.
  exact (proj2 (proj2 (delete_renumbers (store_of [rec_x; rec_a; rec_b]) 1 rec_a
                         ltac:(lia) eq_refl eq_refl)) 1%nat ltac:(lia)).
Defined.

(** X16. On a store that holds at least one record, [create] followed by
    [delete] of the id it resolved with gives back the store as it was, and
    the [delete] resolves with the record created. *)
Theorem create_then_delete (s : Store) (d : Value) :
  collection s <> [] -> valid_record d = true ->
  Persistence.delete (fst (Persistence.create s d))
                     (num (Z.of_nat (length (collection s))))
  = (s, Resolved (RVal d)).
Proof.
  intros Hne Hd. rewrite (create_of_valid s d Hd). cbn [fst].
  destruct (valid_record_obj d Hd) as (o & -> & _).
  rewrite (delete_record _ (length (collection s)) (VObj o)); [| | | reflexivity].
  - unfold Persistence.set_data, collection. cbn.
    rewrite (delete_middle (elems (data s)) [] (VObj o)), app_nil_r.
    rewrite array_eta, store_eta. reflexivity.
  - destruct (collection s); [congruence | cbn; lia].
  - unfold record_at, collection. cbn. apply list_lookup_middle. reflexivity.
Qed.

Lemma create_then_delete_witness :
  Persistence.delete (fst (Persistence.create (store_of [rec_x]) rec_y)) (num 1)
  = (store_of [rec_x], Resolved (RVal rec_y)).
Proof.
  exact (create_then_delete (store_of [rec_x]) rec_y ltac:(discriminate) eq_refl).
Defined.

(** X17. [delete] with a falsy id (no id, [NaN] or 0) removes the first
    record of the collection, if there is one, and resolves with the array
    itself. *)
Theorem delete_falsy_id_removes_first (s : Store) (id : Id) :
  truthy (id_value id) = false ->
  Persistence.delete s id
  = (Persistence.set_data s {| elems := tail (collection s); props := props (data s) |},
     Resolved RData).
Proof.
  intros Hf. unfold Persistence.delete. rewrite (list_falsy s id Hf).
  cbn [Persistence.await]. do 2 f_equal. unfold splice1, collection.
  assert (Hz : id_integer id = 0)
    by (destruct (truthy_id_cases id Hf) as [-> | [-> | ->]]; reflexivity).
  rewrite Hz. cbn. rewrite Z.min_l by lia. cbn.
  destruct (elems (data s)); reflexivity.
Qed.

Lemma delete_falsy_id_removes_first_witness :
  Persistence.delete (store_of [rec_x; rec_y]) IdUndefined
  = (store_of [rec_y], Resolved RData).
Proof.
  exact (delete_falsy_id_removes_first (store_of [rec_x; rec_y]) IdUndefined eq_refl).
Defined.

(** X18. No sequence of calls changes [this.model]: it stays the handle
    the constructor was given. *)
Theorem model_never_changes (m : Value) (ops : list Op) :
  model (run (Persistence.constructor m) ops) = m.
Proof.
  change m with (model (Persistence.constructor m)) at 2.
  unfold run. generalize (Persistence.constructor m).
  induction ops as [| op ops IH]; intros s; cbn; [reflexivity |].
  rewrite IH. apply model_step.
Qed.

(** X19. On a collection that is not empty, [update] and [replace] never
    change the number of records, whatever the id and the data and whether
    they resolve or reject. *)
Theorem update_replace_keep_length (s : Store) (id : Id) (d : Value) :
  collection s <> [] ->
  length (collection (fst (Persistence.update s id d))) = length (collection s) /\
  length (collection (fst (Persistence.replace s id d))) = length (collection s).
Proof.
  intros Hne. unfold Persistence.update, Persistence.replace.
  destruct (Persistence.await (Persistence.list s id)) as [el | e] eqn:Hl;
    [| split; reflexivity].
  split.
  - destruct (Persistence.validate _) as [[err |] | e]; try reflexivity.
    cbn. eapply assign_length; eassumption.
  - destruct (Persistence.validate d) as [[err |] | e]; try reflexivity.
    cbn. eapply assign_length; eassumption.
Qed.

Lemma update_replace_keep_length_witness :
  length (collection (fst (Persistence.update (store_of [rec_x; rec_y]) (num 0) rec_a)))
  = 2%nat.
Proof.
  exact (proj1 (update_replace_keep_length (store_of [rec_x; rec_y]) (num 0) rec_a
                  ltac:(discriminate))).
Defined.

(** X20. A call that does not resolve assigns nothing: when [create],
    [update], [replace] or [delete] rejects or throws, the store is the one
    the call started from. *)
Theorem unresolved_call_changes_nothing (s : Store) (op : Op) :
  match op with
  | OpCreate d => is_resolved (snd (Persistence.create s d)) = false
  | OpUpdate id d => is_resolved (snd (Persistence.update s id d)) = false
  | OpReplace id d => is_resolved (snd (Persistence.replace s id d)) = false
  | OpDelete id => is_resolved (snd (Persistence.delete s id)) = false
  | OpList _ | OpValidate _ => True
  end ->
  step s op = s.
Proof.
  destruct op as [id | d | id d | id d | id | d]; cbn; try reflexivity.
  - unfold Persistence.create.
    destruct (Persistence.validate d) as [[err |] | e]; cbn; congruence.
  - unfold Persistence.update.
    destruct (Persistence.await _) as [el | e]; [| reflexivity].
    destruct (Persistence.validate _) as [[err |] | e]; cbn; congruence.
  - unfold Persistence.replace.
    destruct (Persistence.await _) as [el | e]; [| reflexivity].
    destruct (Persistence.validate _) as [[err |] | e]; cbn; congruence.
  - unfold Persistence.delete.
    destruct (Persistence.await _) as [el | e]; cbn; congruence.
Qed.

Lemma unresolved_call_changes_nothing_witness :
  step (store_of [rec_x; rec_y]) (OpReplace (num 1) not_valid)
  = store_of [rec_x; rec_y].
Proof.
  exact (unresolved_call_changes_nothing (store_of [rec_x; rec_y])
           (OpReplace (num 1) not_valid) eq_refl).
Defined.
